(** * Phonebook backend (index.js): a shallow embedding and its properties

    The program is a small Express server.  Its whole state is the module
    variable [persons], which holds a reference to an array of records
    [{name, number, id}].  The handlers read that array with [find],
    [some] and [map], and [POST /api/persons] replaces the reference with
    the result of [persons.concat(person)].

    The embedding follows the source handler by handler:
    - JavaScript values that reach the handlers (the parsed JSON body, the
      decoded [:id] path segment) are modelled by [value] and [string];
    - arrays live in a heap ([gmap loc (list person)]) and [persons] is a
      location, so that replacing the reference and mutating the array are
      different things;
    - a handler is a function from the request and the state to a response
      and a state; an exception inside [try] is [None] in the option monad
      and the [catch] turns it into the 500 response.

    The limits of an engine (the number of arguments a call can spread, the
    length of an array, memory) are not part of the model. *)

From stdpp Require Import base numbers option list strings gmap.
From Stdlib Require Import ZArith Lia Ascii.

Local Open Scope Z_scope.

(** ** JavaScript numbers

    A Number is NaN, an infinity, or a finite binary value
    [(-1)^neg * m * 2^e].  The representation is not normalised: equality of
    numbers is [num_eqb], never Leibniz equality.  The ids of the records are
    integers, kept as [Z]; [num_of_Z] injects them. *)

Inductive num : Type :=
  | NaN
  | Inf (neg : bool)
  | Fin (neg : bool) (m : N) (e : Z).

Definition num_of_Z (z : Z) : num := Fin (z <? 0) (Z.abs_N z) 0.

Definition num_is_zero (x : num) : bool :=
  match x with
  | Fin _ m _ => (m =? 0)%N
  | _ => false
  end.

(** [x === y] on two Numbers: NaN differs from everything, [+0 === -0],
    otherwise the two denote the same real. *)
Definition num_eqb (x y : num) : bool :=
  match x, y with
  | NaN, _ | _, NaN => false
  | Inf s, Inf t => bool_decide (s = t)
  | Inf _, Fin _ _ _ | Fin _ _ _, Inf _ => false
  | Fin s m e, Fin t n f =>
      if (m =? 0)%N then (n =? 0)%N
      else
        bool_decide (s = t) &&
        (let k := Z.min e f in
         Z.of_N m * 2 ^ (e - k) =? Z.of_N n * 2 ^ (f - k))
  end.

(** ** JavaScript values, as far as JSON bodies can produce them *)

#[local] Set Warnings "-register-all".

Inductive value : Type :=
  | VUndefined
  | VNull
  | VBool (b : bool)
  | VNum (x : num)
  | VStr (s : string)
  | VArray (items : list value)
  | VObject (props : list (string * value)).

(** ToBoolean: [undefined], [null], [false], [0], [-0], [NaN] and the empty
    string are falsy; every object (arrays included) is truthy. *)
Definition truthy (v : value) : bool :=
  match v with
  | VUndefined | VNull => false
  | VBool b => b
  | VNum x => match x with NaN => false | _ => negb (num_is_zero x) end
  | VStr s => negb (String.eqb s EmptyString)
  | VArray _ | VObject _ => true
  end.

(** [a === b] where [a] and [b] come from two different requests (or from
    the seed and a request).  Primitives compare by type and value.  Objects
    and arrays compare by identity, and every request body is parsed into
    fresh objects, so two of them are never identical. *)
Definition strict_eq (a b : value) : bool :=
  match a, b with
  | VUndefined, VUndefined => true
  | VNull, VNull => true
  | VBool x, VBool y => bool_decide (x = y)
  | VNum x, VNum y => num_eqb x y
  | VStr s, VStr t => String.eqb s t
  | _, _ => false
  end.

(** [body.name] and [body.number].  Reading a property of [undefined] or
    [null] throws a TypeError ([None]).  On an object it is the property's
    value, or [undefined] when there is none; arrays and primitives have no
    property called [name] or [number] (the only keys the program reads). *)
Definition nullish (v : value) : bool :=
  match v with
  | VUndefined | VNull => true
  | _ => false
  end.

(** [props] are the own properties of a parsed JSON object, each key once. *)
Fixpoint lookup_prop (k : string) (props : list (string * value)) : value :=
  match props with
  | [] => VUndefined
  | (k', v) :: rest => if String.eqb k k' then v else lookup_prop k rest
  end.

Definition get_prop (k : string) (v : value) : option value :=
  match v with
  | VUndefined | VNull => None
  | VObject props => Some (lookup_prop k props)
  | _ => Some VUndefined
  end.

(** ** [Number(string)]: the built-in StringToNumber

    Strings are sequences of UTF-8 bytes.  The argument is trimmed of white
    space and line terminators, then read as a StrNumericLiteral: a signed
    decimal literal with optional fraction and exponent, [Infinity], or an
    unsigned binary, octal or hexadecimal integer.  The empty (or blank)
    string is [+0]; anything else is [NaN].  The mathematical value is
    rounded to the nearest binary64 value, ties to even. *)

Definition code (c : ascii) : N := N_of_ascii c.

Definition is_digit (c : ascii) : bool := (48 <=? code c)%N && (code c <=? 57)%N.

Definition hex_val (c : ascii) : option N :=
  let n := code c in
  if (48 <=? n)%N && (n <=? 57)%N then Some (n - 48)%N
  else if (97 <=? n)%N && (n <=? 102)%N then Some (n - 87)%N
  else if (65 <=? n)%N && (n <=? 70)%N then Some (n - 55)%N
  else None.

Definition is_ws1 (c : ascii) : bool :=
  let n := code c in
  (n =? 9)%N || (n =? 10)%N || (n =? 11)%N || (n =? 12)%N || (n =? 13)%N || (n =? 32)%N.

(** U+00A0. *)
Definition is_ws2 (c1 c2 : ascii) : bool :=
  (code c1 =? 194)%N && (code c2 =? 160)%N.

(** U+1680, U+2000..U+200A, U+2028, U+2029, U+202F, U+205F, U+3000, U+FEFF. *)
Definition is_ws3 (c1 c2 c3 : ascii) : bool :=
  let '(a, b, c) := (code c1, code c2, code c3) in
  ((a =? 225)%N && (b =? 154)%N && (c =? 128)%N)
  || ((a =? 226)%N && (b =? 128)%N &&
      (((128 <=? c)%N && (c <=? 138)%N) || (c =? 168)%N || (c =? 169)%N || (c =? 175)%N))
  || ((a =? 226)%N && (b =? 129)%N && (c =? 159)%N)
  || ((a =? 227)%N && (b =? 128)%N && (c =? 128)%N)
  || ((a =? 239)%N && (b =? 187)%N && (c =? 191)%N).

Fixpoint skip_ws (s : string) : string :=
  match s with
  | EmptyString => s
  | String c1 r1 =>
      if is_ws1 c1 then skip_ws r1
      else match r1 with
           | EmptyString => s
           | String c2 r2 =>
               if is_ws2 c1 c2 then skip_ws r2
               else match r2 with
                    | EmptyString => s
                    | String c3 r3 => if is_ws3 c1 c2 c3 then skip_ws r3 else s
                    end
           end
  end.

(** Reads the longest run of digits in base [base]; returns the accumulated
    value, the number of digits read and the rest of the string. *)
Fixpoint read_digits (base : N) (s : string) (acc : N) (count : N) : N * N * string :=
  match s with
  | EmptyString => (acc, count, s)
  | String c r =>
      match hex_val c with
      | Some d => if (d <? base)%N then read_digits base r (acc * base + d)%N (count + 1)%N
                  else (acc, count, s)
      | None => (acc, count, s)
      end
  end.

(** The binary64 value nearest to [n / d] for [n, d > 0], ties to even. *)
Definition round_ratio (neg : bool) (n d : Z) : num :=
  let scaled q := if 0 <=? q then (n, d * 2 ^ q) else (n * 2 ^ (- q), d) in
  let q0 := Z.log2 n - Z.log2 d - 52 in
  let q1 := let '(a, b) := scaled q0 in if a / b <? 2 ^ 52 then q0 - 1 else q0 in
  let q := Z.max q1 (-1074) in
  let '(a, b) := scaled q in
  let m := a / b in
  let r := a mod b in
  let m' := if (b <? 2 * r) || ((b =? 2 * r) && Z.odd m) then m + 1 else m in
  if (971 <? q) || ((q =? 971) && (2 ^ 53 <=? m')) then Inf neg
  else Fin neg (Z.to_N m') q.

(** The Number for [mant * 10 ^ exp10], signed. *)
Definition round_decimal (neg : bool) (mant : N) (exp10 : Z) : num :=
  if (mant =? 0)%N then Fin neg 0 0
  else if 0 <=? exp10 then round_ratio neg (Z.of_N mant * 10 ^ exp10) 1
  else round_ratio neg (Z.of_N mant) (10 ^ (- exp10)).

Definition strip_prefix (p s : string) : option string :=
  if String.prefix p s
  then Some (String.substring (String.length p) (String.length s - String.length p) s)
  else None.

(** ExponentPart, if one is there: [e] or [E], an optional sign, digits. *)
Definition read_exponent (s : string) : Z * string :=
  match s with
  | String c r =>
      if (code c =? 101)%N || (code c =? 69)%N then
        let '(neg, r') :=
          match r with
          | String c' r' =>
              if (code c' =? 45)%N then (true, r')
              else if (code c' =? 43)%N then (false, r')
              else (false, r)
          | EmptyString => (false, r)
          end in
        let '(e, count, rest) := read_digits 10 r' 0%N 0%N in
        if (count =? 0)%N then (0, s)
        else ((if neg then - Z.of_N e else Z.of_N e), rest)
      else (0, s)
  | EmptyString => (0, s)
  end.

(** StrUnsignedDecimalLiteral. *)
Definition read_unsigned_decimal (neg : bool) (s : string) : option (num * string) :=
  match strip_prefix "Infinity" s with
  | Some rest => Some (Inf neg, rest)
  | None =>
      let '(i, ni, r1) := read_digits 10 s 0%N 0%N in
      let '(mant, nf, r2) :=
        match r1 with
        | String c r =>
            if (code c =? 46)%N
            then let '(m, nf, r2) := read_digits 10 r i 0%N in (m, nf, r2)
            else (i, 0%N, r1)
        | EmptyString => (i, 0%N, r1)
        end in
      if ((ni + nf)%N =? 0)%N then None
      else
        let '(e, rest) := read_exponent r2 in
        Some (round_decimal neg mant (e - Z.of_N nf), rest)
  end.

(** NonDecimalIntegerLiteral: [0b], [0o], [0x] and their capitals. *)
Definition read_non_decimal (s : string) : option (num * string) :=
  match s with
  | String z (String p r) =>
      if (code z =? 48)%N then
        let base : option N :=
          if (code p =? 98)%N || (code p =? 66)%N then Some 2%N
          else if (code p =? 111)%N || (code p =? 79)%N then Some 8%N
          else if (code p =? 120)%N || (code p =? 88)%N then Some 16%N
          else None in
        match base with
        | Some b =>
            let '(n, count, rest) := read_digits b r 0%N 0%N in
            if (count =? 0)%N then None
            else Some (round_decimal false n 0, rest)
        | None => None
        end
      else None
  | _ => None
  end.

Definition read_numeric_literal (s : string) : option (num * string) :=
  match read_non_decimal s with
  | Some r => Some r
  | None =>
      match s with
      | String c r =>
          if (code c =? 45)%N then read_unsigned_decimal true r
          else if (code c =? 43)%N then read_unsigned_decimal false r
          else read_unsigned_decimal false s
      | EmptyString => None
      end
  end.

Definition Number (s : string) : num :=
  match skip_ws s with
  | EmptyString => Fin false 0 0
  | t =>
      match read_numeric_literal t with
      | Some (x, rest) =>
          match skip_ws rest with
          | EmptyString => x
          | _ => NaN
          end
      | None => NaN
      end
  end.

(** ** The records and the responses *)

(** A record of the phonebook; the fields are in the order of the object
    literal in [POST /api/persons].  [name] and [number] are whatever the
    request body held.  [id] is always a Number the server made: an integer,
    from the seed or from [generateId]; integers are exact in a Number up to
    [2^53], which no array can be long enough to reach, so [id] is a [Z]. *)
Record person : Type := Person {
  name : value;
  number : value;
  id : Z;
}.

(** What a handler sends: [response.send(html)], [response.json(...)] of a
    record, of the array or of an [{error: msg}] object, or [response.end()]
    with nothing. *)
Inductive content : Type :=
  | NoBody
  | Html (s : string)
  | JsonPerson (p : person)
  | JsonPersons (ps : list person)
  | JsonError (error : string).

Record response : Type := Response {
  status : Z;
  sent : content;
}.

(** ** The state: the heap of arrays and the variable [persons] *)

Definition loc : Type := positive.

Record state : Type := State {
  heap : gmap loc (list person);
  persons : loc;
}.

(** The array literal the module starts with. *)
Definition seed : list person :=
  [ Person (VStr "Arto Hellas") (VStr "040-123456") 1;
    Person (VStr "Ada Lovelace") (VStr "39-44-5323523") 2;
    Person (VStr "Dan Abramov") (VStr "12-43-234345") 3;
    Person (VStr "Mary Poppendieck") (VStr "39-23-6423122") 4 ].

Definition init : state := State {[ 1%positive := seed ]} 1%positive.

(** The array [persons] refers to; a dangling reference reads as an
    exception. *)
Definition deref (st : state) : option (list person) := heap st !! persons st.

(** [a.concat(x)] allocates a new array and leaves [a] alone. *)
Definition concat (h : gmap loc (list person)) (a : list person) (x : person)
  : loc * gmap loc (list person) :=
  let l := fresh (dom h) in (l, <[l := a ++ [x]]> h).

(** ** [generateId] *)

(** [Math.max(x, ...xs)] on at least one argument. *)
Definition Math_max (x : Z) (xs : list Z) : Z := foldl Z.max x xs.

(** [persons.length > 0 ? Math.max(...persons.map(n => n.id)) : 0], plus 1;
    [ps] is the array [persons] refers to. *)
Definition generateId (ps : list person) : Z :=
  let maxId :=
    match ps with
    | [] => 0
    | p :: rest => Math_max (id p) (id <$> rest)
    end in
  maxId + 1.

(** ** The handlers

    [/info] comes further down, as [get_info].  The middleware (CORS, the
    JSON body parser, the static files) is left out: it does not touch
    [persons]. *)

(** [GET /] *)
Definition get_root (st : state) : response * state :=
  (Response 200 (Html "<h1>Phonebook Backend is Running!</h1>"), st).

(** [GET /api/persons] *)
Definition get_persons (st : state) : option (response * state) :=
  ps ← deref st;
  Some (Response 200 (JsonPersons ps), st).

(** [GET /api/persons/:id]; [seg] is [request.params.id]. *)
Definition get_person (seg : string) (st : state) : option (response * state) :=
  ps ← deref st;
  let id' := Number seg in
  match List.find (λ p, num_eqb (num_of_Z (id p)) id') ps with
  | Some person => Some (Response 200 (JsonPerson person), st)
  | None => Some (Response 404 NoBody, st)
  end.

(** The [try] block of [POST /api/persons]; [None] is a thrown exception. *)
Definition try_post_persons (body : value) (st : state) : option (response * state) :=
  body_name ← get_prop "name" body;
  body_number ← get_prop "number" body;
  if negb (truthy body_name) || negb (truthy body_number) then
    Some (Response 400 (JsonError "name or number missing"), st)
  else
    ps ← deref st;
    let nameExists := existsb (λ person, strict_eq (name person) body_name) ps in
    if nameExists then
      Some (Response 409 (JsonError "name already exists"), st)
    else
      let person := Person body_name body_number (generateId ps) in
      let '(l, h) := concat (heap st) ps person in
      Some (Response 201 (JsonPerson person), State h l).

(** [POST /api/persons]: the [try] block and its [catch]. *)
Definition post_persons (body : value) (st : state) : response * state :=
  match try_post_persons body st with
  | Some r => r
  | None => (Response 500 (JsonError "An unexpected error occurred on the server."), st)
  end.

(** ** Server start *)

(** [const port = 3001] *)
Definition port : value := VNum (num_of_Z 3001).

(** [const PORT = process.env.PORT || 3001] *)
Definition PORT (env : gmap string string) : value :=
  let env_PORT := match env !! "PORT" with Some s => VStr s | None => VUndefined end in
  if truthy env_PORT then env_PORT else VNum (num_of_Z 3001).

(** The first argument of [app.listen(port, ...)], after [PORT] has been
    computed. *)
Definition listen (env : gmap string string) : value :=
  let _ := PORT env in
  port.

(** ** Reachable states *)

(** The states the server goes through: [init], then one [POST] after the
    other.  The [GET] handlers return the state they were given. *)
Inductive run (st : state) : state → Prop :=
  | run_refl : run st st
  | run_post st' body : run st st' → run st (post_persons body st').2.

Definition reachable (st : state) : Prop := run init st.

(** ** Notions the statements use *)

(** [id p === x] for a record [p] and a Number [x]. *)
Definition id_is (x : num) (p : person) : bool := num_eqb (num_of_Z (id p)) x.

(** No two records carry names that the program's own comparison [===]
    identifies. *)
Definition names_apart (ps : list person) : Prop :=
  ∀ i j p q, ps !! i = Some p → ps !! j = Some q → i ≠ j →
             strict_eq (name p) (name q) = false.

(** The invariant of the state: [persons] refers to an array of the heap in
    which ids are pairwise distinct and names are pairwise apart. *)
Definition collection_ok (st : state) : Prop :=
  ∃ ps, deref st = Some ps ∧ NoDup (id <$> ps) ∧ names_apart ps.

(** The state after a successful [POST]: a new array at a new location. *)
Definition appended (st : state) (ps : list person) (p : person) : state :=
  State (<[fresh (dom (heap st)) := ps ++ [p]]> (heap st)) (fresh (dom (heap st))).

(** The plain decimal digits of [n], least significant digit written first
    and pushed in front of [acc]. *)
Fixpoint digits_of (fuel : nat) (n : N) (acc : string) : string :=
  match fuel with
  | O => acc
  | S fuel' =>
      let acc' := String (ascii_of_N (48 + n mod 10)) acc in
      if (n <? 10)%N then acc' else digits_of fuel' (n / 10) acc'
  end.

(** [String(z)] for an integer [z] below [10^21] in magnitude: the decimal
    digits, after a minus sign when [z] is negative. *)
Definition decimal (z : Z) : string :=
  let n := Z.abs_N z in
  let ds := digits_of (S (N.to_nat (N.log2 n))) n EmptyString in
  if z <? 0 then String "-" ds else ds.

Fixpoint all_digits (s : string) : bool :=
  match s with
  | EmptyString => true
  | String c r => is_digit c && all_digits r
  end.

(** The ASCII characters with which no numeric string begins. *)
Definition cannot_start_number (c : ascii) : bool :=
  (code c <? 128)%N && negb (is_ws1 c) && negb (is_digit c)
  && negb ((code c =? 43)%N || (code c =? 45)%N || (code c =? 46)%N || (code c =? 73)%N).

(** Request bodies for the examples. *)
Definition new_person_payload : list (string * value) :=
  [("name", VStr "New Person"); ("number", VStr "000")].

Definition payload_with_id : list (string * value) :=
  [("id", VNum (num_of_Z 1)); ("name", VStr "New Person");
   ("admin", VBool true); ("number", VStr "000")].

Definition array_named_payload : value :=
  VObject [("name", VArray []); ("number", VStr "1")].

(** ** [GET /info] and sequences of requests *)

(** The line feed of the template literal. *)
Definition LF : string := String (ascii_of_N 10) EmptyString.

(** The template literal of [/info], with [numberOfEntries] and
    [currentTime] (the clock as [Date] prints it) filled in. *)
Definition info_page (numberOfEntries : nat) (currentTime : string) : string :=
  "<div>" +:+ LF +:+
  "      <p>Phonebook has info for " +:+ decimal (Z.of_nat numberOfEntries)
    +:+ " people</p>" +:+ LF +:+
  "      <p>" +:+ currentTime +:+ "</p>" +:+ LF +:+
  "    </div>".

(** [GET /info]; [currentTime] is [new Date()] as the template prints it. *)
Definition get_info (currentTime : string) (st : state) : option (response * state) :=
  ps ← deref st;
  let numberOfEntries := length ps in
  Some (Response 200 (Html (info_page numberOfEntries currentTime)), st).

(** [POST /api/persons] for each body of a list, in order: the responses and
    the state at the end. *)
Fixpoint serve_posts (bodies : list value) (st : state) : list response * state :=
  match bodies with
  | [] => ([], st)
  | body :: rest =>
      let '(r, st1) := post_persons body st in
      let '(rs, st2) := serve_posts rest st1 in
      (r :: rs, st2)
  end.

(** The records of the 201 responses, in order. *)
Definition created (rs : list response) : list person :=
  omap (λ r, match r with
             | Response 201 (JsonPerson p) => Some p
             | _ => None
             end) rs.

(** The three error messages of [POST /api/persons]. *)
Definition error_messages : list string :=
  [ "name or number missing"; "name already exists";
    "An unexpected error occurred on the server." ].

(** The record at index [i] has id [i + 1]. *)
Definition consecutive (ps : list person) : Prop :=
  ∀ i p, ps !! i = Some p → id p = Z.of_nat i + 1.

(** Case analysis on a character known to be a digit. *)
Ltac digit_cases c H :=
  let b0 := fresh in let b1 := fresh in let b2 := fresh in let b3 := fresh in
  let b4 := fresh in let b5 := fresh in let b6 := fresh in let b7 := fresh in
  destruct c as [b0 b1 b2 b3 b4 b5 b6 b7];
  destruct b0, b1, b2, b3, b4, b5, b6, b7; try discriminate H.

(** * Properties *)

(** ** Numbers and values *)

Lemma num_eqb_sym (x y : num) : num_eqb x y = num_eqb y x.
Proof.
  destruct x as [|s|s m e], y as [|t|t n f]; simpl; try reflexivity.
  - apply bool_decide_ext. split; congruence.
  - rewrite (Z.min_comm f e).
    assert (Hpow : ∀ a b, 0 < 2 ^ (a - Z.min a b)).
    { intros a b. apply Z.pow_pos_nonneg; lia. }
    destruct (N.eqb_spec m 0) as [->|Hm], (N.eqb_spec n 0) as [->|Hn]; try reflexivity.
    + symmetry. apply andb_false_iff. right. apply Z.eqb_neq.
      specialize (Hpow f e). rewrite Z.min_comm in Hpow. nia.
    + apply andb_false_iff. right. apply Z.eqb_neq.
      specialize (Hpow e f). nia.
    + f_equal.
      * apply bool_decide_ext. split; congruence.
      * apply Z.eqb_sym.
Qed.

Lemma strict_eq_sym (a b : value) : strict_eq a b = strict_eq b a.
Proof.
  destruct a, b; simpl; try reflexivity.
  - apply bool_decide_ext. split; congruence.
  - apply num_eqb_sym.
  - apply String.eqb_sym.
Qed.

Lemma strict_eq_str (s t : string) : strict_eq (VStr s) (VStr t) = true ↔ s = t.
Proof. simpl. apply String.eqb_eq. Qed.

Lemma num_eqb_of_Z (a b : Z) : num_eqb (num_of_Z a) (num_of_Z b) = true ↔ a = b.
Proof.
  unfold num_of_Z. simpl. rewrite Z.min_id, Z.sub_diag. simpl.
  rewrite !Z.mul_1_r, !N2Z.inj_abs_N.
  destruct (N.eqb_spec (Z.abs_N a) 0) as [Ha|Ha].
  - rewrite N.eqb_eq. split; lia.
  - rewrite andb_true_iff, bool_decide_eq_true, Z.eqb_eq.
    split; [intros [Hs Hv]|intros ->; done].
    destruct (Z.ltb_spec a 0), (Z.ltb_spec b 0); try discriminate; lia.
Qed.

(** ** [generateId] *)

Lemma Math_max_ge (xs : list Z) (x : Z) :
  x ≤ Math_max x xs ∧ ∀ y, y ∈ xs → y ≤ Math_max x xs.
Proof.
  unfold Math_max. revert x.
  induction xs as [|z xs IH]; intros x; simpl.
  - split; [lia|]. intros y Hy. inversion Hy.
  - destruct (IH (Z.max x z)) as [H1 H2]. split; [lia|].
    intros y [->|Hy]%elem_of_cons; [lia|auto].
Qed.

Lemma Math_max_elem (xs : list Z) (x : Z) : Math_max x xs ∈ x :: xs.
Proof.
  unfold Math_max. revert x.
  induction xs as [|z xs IH]; intros x; simpl.
  - left.
  - specialize (IH (Z.max x z)).
    apply elem_of_cons in IH as [->|IH].
    + destruct (Z.max_spec x z) as [[_ ->]|[_ ->]]; [right; left|left].
    + right; right; exact IH.
Qed.

(** The new id exceeds every id in the array. *)
Lemma generateId_gt (ps : list person) (q : person) : q ∈ ps → id q < generateId ps.
Proof.
  unfold generateId. destruct ps as [|p rest]; [intros H; inversion H|].
  destruct (Math_max_ge (id <$> rest) (id p)) as [H1 H2].
  intros [->|Hq]%elem_of_cons; [lia|].
  specialize (H2 (id q) (list_elem_of_fmap_2 id _ _ Hq)). lia.
Qed.

(** On a non-empty array the new id is one more than the id of a record,
    and that id is the greatest. *)
Lemma generateId_max (ps : list person) :
  ps ≠ [] → ∃ q, q ∈ ps ∧ generateId ps = 1 + id q ∧ ∀ r, r ∈ ps → id r ≤ id q.
Proof.
  destruct ps as [|p rest]; [done|]. intros _.
  pose proof (Math_max_elem (id <$> rest) (id p)) as Hin.
  change (id p :: (id <$> rest)) with (id <$> (p :: rest)) in Hin.
  apply list_elem_of_fmap in Hin as (q & Hq & Hin).
  exists q. split; [exact Hin|]. split.
  - unfold generateId. rewrite Hq. lia.
  - intros r Hr. pose proof (generateId_gt (p :: rest) r Hr) as Hlt.
    unfold generateId in Hlt. rewrite Hq in Hlt. lia.
Qed.

(** ** [POST /api/persons], case by case *)

Lemma existsb_name_false (ps : list person) (n : value) :
  existsb (λ q, strict_eq (name q) n) ps = false ↔
  ∀ q, q ∈ ps → strict_eq (name q) n = false.
Proof.
  induction ps as [|p ps IH]; simpl.
  - split; [intros _ q Hq; inversion Hq|done].
  - rewrite orb_false_iff, IH. split.
    + intros [Hp Hps] q [->|Hq]%elem_of_cons; auto.
    + intros H. split; [apply H; left|intros q Hq; apply H; by right].
Qed.

Lemma existsb_name_true (ps : list person) (n : value) :
  existsb (λ q, strict_eq (name q) n) ps = true ↔
  ∃ q, q ∈ ps ∧ strict_eq (name q) n = true.
Proof.
  rewrite existsb_exists. split; intros (q & Hq & H); exists q;
    (split; [by apply list_elem_of_In|exact H]).
Qed.

Lemma deref_appended (st : state) (ps : list person) (p : person) :
  deref (appended st ps p) = Some (ps ++ [p]).
Proof. unfold deref, appended. simpl. apply lookup_insert_eq. Qed.

Lemma post_persons_created (body n m : value) (st : state) (ps : list person) :
  get_prop "name" body = Some n → get_prop "number" body = Some m →
  truthy n = true → truthy m = true →
  deref st = Some ps →
  existsb (λ q, strict_eq (name q) n) ps = false →
  post_persons body st =
    (Response 201 (JsonPerson (Person n m (generateId ps))),
     appended st ps (Person n m (generateId ps))).
Proof.
  intros Hn Hm Tn Tm Hps Hex. unfold post_persons, try_post_persons.
  rewrite Hn, Hm. simpl. rewrite Tn, Tm. simpl. rewrite Hps. simpl.
  rewrite Hex. reflexivity.
Qed.

Lemma post_persons_201_inv (body : value) (st st' : state) (b : content) :
  post_persons body st = (Response 201 b, st') →
  ∃ ps n m,
    get_prop "name" body = Some n ∧ get_prop "number" body = Some m ∧
    truthy n = true ∧ truthy m = true ∧
    deref st = Some ps ∧
    existsb (λ q, strict_eq (name q) n) ps = false ∧
    b = JsonPerson (Person n m (generateId ps)) ∧
    st' = appended st ps (Person n m (generateId ps)).
Proof.
  unfold post_persons, try_post_persons.
  destruct (get_prop "name" body) as [n|] eqn:Hn; simpl; [|intros [=]].
  destruct (get_prop "number" body) as [m|] eqn:Hm; simpl; [|intros [=]].
  destruct (truthy n) eqn:Tn; simpl; [|intros [=]].
  destruct (truthy m) eqn:Tm; simpl; [|intros [=]].
  destruct (deref st) as [ps|] eqn:Hps; simpl; [|intros [=]].
  destruct (existsb _ ps) eqn:Hex; simpl; [intros [=]|].
  intros [= <- <-]. exists ps, n, m. done.
Qed.

(** A [POST] either leaves the state as it is or appends one record. *)
Lemma post_persons_state (body : value) (st : state) :
  (post_persons body st).2 = st ∨
  ∃ ps n m,
    deref st = Some ps ∧ truthy n = true ∧
    existsb (λ q, strict_eq (name q) n) ps = false ∧
    (post_persons body st).2 = appended st ps (Person n m (generateId ps)).
Proof.
  unfold post_persons, try_post_persons.
  destruct (get_prop "name" body) as [n|]; simpl; [|by left].
  destruct (get_prop "number" body) as [m|]; simpl; [|by left].
  destruct (truthy n) eqn:Tn; simpl; [|by left].
  destruct (truthy m); simpl; [|by left].
  destruct (deref st) as [ps|] eqn:Hps; simpl; [|by left].
  destruct (existsb _ ps) eqn:Hex; simpl; [by left|].
  right. exists ps, n, m. done.
Qed.

(** C1. For every payload whose name and number are truthy and whose name is
    [===] to no record's name, [POST /api/persons] answers 201 with the new
    record, the array [persons] refers to afterwards is the old one with that
    record appended, and the record's id is 1 when the array was empty and
    otherwise 1 plus the greatest id in it; the id is strictly greater than
    every id that was there. *)
Theorem create_assigns_next_id (st : state) (ps : list person)
    (props : list (string * value)) :
  deref st = Some ps →
  truthy (lookup_prop "name" props) = true →
  truthy (lookup_prop "number" props) = true →
  (∀ q, q ∈ ps → strict_eq (name q) (lookup_prop "name" props) = false) →
  ∃ p st',
    post_persons (VObject props) st = (Response 201 (JsonPerson p), st') ∧
    deref st' = Some (ps ++ [p]) ∧
    name p = lookup_prop "name" props ∧
    number p = lookup_prop "number" props ∧
    (ps = [] → id p = 1) ∧
    (ps ≠ [] → ∃ q, q ∈ ps ∧ id p = 1 + id q ∧ ∀ r, r ∈ ps → id r ≤ id q) ∧
    (∀ q, q ∈ ps → id q < id p).
Proof.
  intros Hps Tn Tm Hnew.
  set (p := Person (lookup_prop "name" props) (lookup_prop "number" props) (generateId ps)).
  exists p, (appended st ps p). split; [|split; [|split; [|split; [|split; [|split]]]]].
  - apply post_persons_created; try done. by apply existsb_name_false.
  - apply deref_appended.
  - reflexivity.
  - reflexivity.
  - intros ->. reflexivity.
  - apply generateId_max.
  - intros q Hq. by apply generateId_gt.
Qed.

Lemma create_assigns_next_id_witness :
  ∃ p st',
    post_persons (VObject new_person_payload) init = (Response 201 (JsonPerson p), st') ∧
    deref st' = Some (seed ++ [p]) ∧
    name p = VStr "New Person" ∧
    number p = VStr "000" ∧
    (seed = [] → id p = 1) ∧
    (seed ≠ [] → ∃ q, q ∈ seed ∧ id p = 1 + id q ∧ ∀ r, r ∈ seed → id r ≤ id q) ∧
    (∀ q, q ∈ seed → id q < id p).
Proof.
  apply (create_assigns_next_id init seed new_person_payload).
  - reflexivity.
  - reflexivity.
  - reflexivity.
  - intros q Hq. apply (proj1 (existsb_name_false seed _)); [reflexivity|exact Hq].
Defined.

Lemma post_persons_400 (st : state) (body n m : value) :
  get_prop "name" body = Some n → get_prop "number" body = Some m →
  truthy n = false ∨ truthy m = false →
  post_persons body st = (Response 400 (JsonError "name or number missing"), st).
Proof.
  intros Hn Hm Hfalsy. unfold post_persons, try_post_persons.
  rewrite Hn, Hm. simpl.
  destruct Hfalsy as [-> | ->]; [|rewrite orb_true_r]; reflexivity.
Qed.

(** C3. When the payload's name or number is missing or falsy,
    [POST /api/persons] answers 400 with [{error: "name or number missing"}]
    and the state (the variable [persons] and every array) is what it was. *)
Theorem create_rejects_missing_field (st : state) (props : list (string * value)) :
  truthy (lookup_prop "name" props) = false ∨
  truthy (lookup_prop "number" props) = false →
  post_persons (VObject props) st
    = (Response 400 (JsonError "name or number missing"), st).
Proof. intros H. by eapply post_persons_400. Qed.

Lemma create_rejects_missing_field_witness :
  post_persons (VObject []) init
    = (Response 400 (JsonError "name or number missing"), init) ∧
  post_persons (VObject [("name", VStr "Grace Hopper"); ("number", VStr EmptyString)]) init
    = (Response 400 (JsonError "name or number missing"), init) ∧
  post_persons (VObject [("name", VNull); ("number", VStr "1")]) init
    = (Response 400 (JsonError "name or number missing"), init).
Proof.
  split; [|split].
  - apply (create_rejects_missing_field init []). left. reflexivity.
  - apply create_rejects_missing_field. right. reflexivity.
  - apply create_rejects_missing_field. left. reflexivity.
Defined.

(** A body that is an array has neither property and is rejected the same
    way. *)
Example create_rejects_array_body (st : state) (items : list value) :
  post_persons (VArray items) st
    = (Response 400 (JsonError "name or number missing"), st).
Proof. eapply post_persons_400; [done..|by left]. Qed.

(** C4. When the payload's name and number are truthy and the name is, as a
    string, exactly the name of a record in the array, [POST /api/persons]
    answers 409 with [{error: "name already exists"}] and the state is what
    it was. *)
Theorem create_rejects_existing_name (st : state) (ps : list person)
    (props : list (string * value)) (s : string) (q : person) :
  deref st = Some ps →
  lookup_prop "name" props = VStr s →
  truthy (VStr s) = true →
  truthy (lookup_prop "number" props) = true →
  q ∈ ps → name q = VStr s →
  post_persons (VObject props) st = (Response 409 (JsonError "name already exists"), st).
Proof.
  intros Hps Hn Tn Tm Hq Hname. unfold post_persons, try_post_persons. simpl.
  rewrite Hn, Tn, Tm. simpl. rewrite Hps. simpl.
  assert (existsb (λ person, strict_eq (name person) (VStr s)) ps = true) as ->; [|done].
  apply existsb_name_true. exists q. split; [exact Hq|].
  rewrite Hname. by apply strict_eq_str.
Qed.

Lemma create_rejects_existing_name_witness :
  post_persons (VObject [("name", VStr "Mary Poppendieck"); ("number", VStr "1")]) init
    = (Response 409 (JsonError "name already exists"), init).
Proof.
  apply (create_rejects_existing_name init seed _ "Mary Poppendieck"
           (Person (VStr "Mary Poppendieck") (VStr "39-23-6423122") 4)).
  - reflexivity.
  - reflexivity.
  - reflexivity.
  - reflexivity.
  - unfold seed. do 3 right. left.
  - reflexivity.
Defined.

(** The comparison is case sensitive: a name that differs from a stored one
    in the case of a letter is accepted. *)
Example create_name_case_sensitive :
  (post_persons (VObject [("name", VStr "mary poppendieck"); ("number", VStr "1")]) init).1
    = Response 201 (JsonPerson (Person (VStr "mary poppendieck") (VStr "1") 5)).
Proof. reflexivity. Qed.

(** The [catch]: a body that is [undefined] makes [body.name] throw, and the
    answer is 500 with the state untouched. *)
Example create_without_body :
  post_persons VUndefined init
    = (Response 500 (JsonError "An unexpected error occurred on the server."), init).
Proof. reflexivity. Qed.

(** C8. A successful [POST /api/persons] does not write to any array that
    exists: [persons] is made to refer to a location that was not allocated
    before, which holds the old array's records followed by the new one, and
    every array of the old heap, the one [persons] referred to included, is
    in the new heap with the same contents. *)
Theorem create_replaces_reference (body : value) (st st' : state) (p : person) :
  post_persons body st = (Response 201 (JsonPerson p), st') →
  ∃ old,
    heap st !! persons st = Some old ∧
    heap st' !! persons st' = Some (old ++ [p]) ∧
    heap st !! persons st' = None ∧
    heap st' !! persons st = Some old ∧
    ∀ l a, heap st !! l = Some a → heap st' !! l = Some a.
Proof.
  intros (ps & n & m & _ & _ & _ & _ & Hps & _ & [= ->] & ->)%post_persons_201_inv.
  set (p := Person n m (generateId ps)).
  assert (Hfresh : heap st !! fresh (dom (heap st)) = None).
  { apply not_elem_of_dom. apply is_fresh. }
  assert (Hframe : ∀ l a, heap st !! l = Some a → heap (appended st ps p) !! l = Some a).
  { intros l a Hl. unfold appended. simpl. rewrite lookup_insert_ne; [exact Hl|].
    intros <-. rewrite Hfresh in Hl. discriminate. }
  exists ps. split; [exact Hps|]. split; [apply deref_appended|].
  split; [exact Hfresh|]. split; [by apply Hframe|exact Hframe].
Qed.

Lemma create_replaces_reference_witness :
  ∃ old,
    heap init !! persons init = Some old ∧
    heap (post_persons (VObject new_person_payload) init).2
      !! persons (post_persons (VObject new_person_payload) init).2
      = Some (old ++ [Person (VStr "New Person") (VStr "000") 5]) ∧
    heap init !! persons (post_persons (VObject new_person_payload) init).2 = None ∧
    heap (post_persons (VObject new_person_payload) init).2 !! persons init = Some old ∧
    ∀ l a, heap init !! l = Some a →
           heap (post_persons (VObject new_person_payload) init).2 !! l = Some a.
Proof.
  apply (create_replaces_reference (VObject new_person_payload) init).
  reflexivity.
Defined.

(** C10. The record a successful [POST /api/persons] stores and returns has
    the payload's [name], the payload's [number] and the id [generateId]
    computes from the array; nothing else of the payload matters: a payload
    with the same [name] and [number] and any other properties (an [id]
    among them) gets the same answer and leaves the same state. *)
Theorem create_copies_name_and_number (props : list (string * value))
    (st st' : state) (b : content) :
  post_persons (VObject props) st = (Response 201 b, st') →
  ∃ ps,
    deref st = Some ps ∧
    b = JsonPerson (Person (lookup_prop "name" props) (lookup_prop "number" props)
                           (generateId ps)) ∧
    deref st' = Some (ps ++ [Person (lookup_prop "name" props)
                                    (lookup_prop "number" props) (generateId ps)]) ∧
    ∀ props',
      lookup_prop "name" props' = lookup_prop "name" props →
      lookup_prop "number" props' = lookup_prop "number" props →
      post_persons (VObject props') st = (Response 201 b, st').
Proof.
  intros H. pose proof H as H0.
  apply post_persons_201_inv in H as (ps & n & m & [= <-] & [= <-] & _ & _ & Hps & _ & -> & ->).
  exists ps. split; [exact Hps|]. split; [reflexivity|].
  split; [apply deref_appended|].
  intros props' Hn Hm. rewrite <- H0.
  unfold post_persons, try_post_persons. simpl. rewrite Hn, Hm. reflexivity.
Qed.

Lemma create_copies_name_and_number_witness :
  post_persons (VObject payload_with_id) init
    = (Response 201 (JsonPerson (Person (VStr "New Person") (VStr "000") 5)),
       (post_persons (VObject new_person_payload) init).2).
Proof.
  destruct (create_copies_name_and_number new_person_payload init
              (post_persons (VObject new_person_payload) init).2
              (JsonPerson (Person (VStr "New Person") (VStr "000") 5)) eq_refl)
    as (ps & _ & _ & _ & Hsame).
  apply (Hsame payload_with_id); reflexivity.
Defined.

(** ** The invariant of the array *)

Lemma ids_NoDup_append (ps : list person) (n m : value) :
  NoDup (id <$> ps) → NoDup (id <$> (ps ++ [Person n m (generateId ps)])).
Proof.
  intros Hnd. rewrite fmap_app. apply NoDup_app. split; [exact Hnd|]. split.
  - intros x (q & -> & Hq)%list_elem_of_fmap Hx. simpl in Hx.
    apply list_elem_of_singleton in Hx.
    pose proof (generateId_gt ps q Hq). lia.
  - simpl. apply NoDup_singleton.
Qed.

Lemma names_apart_append (ps : list person) (p : person) :
  names_apart ps →
  (∀ q, q ∈ ps → strict_eq (name q) (name p) = false) →
  names_apart (ps ++ [p]).
Proof.
  intros Hps Hnew i j a b Hi Hj Hij.
  apply lookup_snoc_Some in Hi as [[Hli Hi]|[Hli <-]];
    apply lookup_snoc_Some in Hj as [[Hlj Hj]|[Hlj <-]].
  - by eapply Hps.
  - apply Hnew. by eapply list_elem_of_lookup_2.
  - rewrite strict_eq_sym. apply Hnew. by eapply list_elem_of_lookup_2.
  - lia.
Qed.

(** What [names_apart] means for names that are strings. *)
Lemma names_apart_strings (ps : list person) (i j : nat) (p q : person) (s t : string) :
  names_apart ps →
  ps !! i = Some p → ps !! j = Some q → i ≠ j →
  name p = VStr s → name q = VStr t → s ≠ t.
Proof.
  intros Hps Hi Hj Hij Hs Ht Heq.
  specialize (Hps i j p q Hi Hj Hij). rewrite Hs, Ht in Hps.
  apply strict_eq_str in Heq. congruence.
Qed.

Lemma collection_ok_init : collection_ok init.
Proof.
  exists seed. split; [reflexivity|]. split.
  - compute_done.
  - intros i j p q Hi Hj Hij.
    destruct i as [|[|[|[|i]]]]; try discriminate Hi;
      destruct j as [|[|[|[|j]]]]; try discriminate Hj;
      try (exfalso; apply Hij; reflexivity);
      injection Hi as <-; injection Hj as <-; reflexivity.
Qed.

(** Every [POST], whatever its body and its outcome, keeps the invariant. *)
Lemma collection_ok_post (body : value) (st : state) :
  collection_ok st → collection_ok (post_persons body st).2.
Proof.
  intros (ps & Hps & Hids & Hnames).
  destruct (post_persons_state body st) as [->|(ps' & n & m & Hps' & _ & Hex & ->)].
  - by exists ps.
  - rewrite Hps in Hps'. injection Hps' as <-.
    exists (ps ++ [Person n m (generateId ps)]).
    split; [apply deref_appended|]. split; [by apply ids_NoDup_append|].
    apply names_apart_append; [exact Hnames|]. by apply existsb_name_false.
Qed.

(** C2, amended. In every state reachable from the seed by
    [POST] requests, [persons] refers to an array whose ids are pairwise
    distinct and in which no two records have names that are [===]; in
    particular the names that are strings are pairwise different strings.
    (Names that are arrays or objects are never [===] to one another, so
    two records may carry the same array or object as a name.) *)
Theorem reachable_ids_and_names_apart (st : state) :
  reachable st →
  ∃ ps,
    deref st = Some ps ∧
    NoDup (id <$> ps) ∧
    names_apart ps ∧
    ∀ i j p q s t,
      ps !! i = Some p → ps !! j = Some q → i ≠ j →
      name p = VStr s → name q = VStr t → s ≠ t.
Proof.
  intros Hrun.
  assert (Hok : collection_ok st).
  { induction Hrun as [|st' body _ IH]; [apply collection_ok_init|].
    by apply collection_ok_post. }
  destruct Hok as (ps & Hps & Hids & Hnames).
  exists ps. split; [exact Hps|]. split; [exact Hids|]. split; [exact Hnames|].
  intros i j p q s t. by apply names_apart_strings.
Qed.

Lemma reachable_ids_and_names_apart_witness :
  ∃ ps,
    deref (post_persons (VObject new_person_payload) init).2 = Some ps ∧
    NoDup (id <$> ps) ∧
    names_apart ps ∧
    ∀ i j p q s t,
      ps !! i = Some p → ps !! j = Some q → i ≠ j →
      name p = VStr s → name q = VStr t → s ≠ t.
Proof.
  apply (reachable_ids_and_names_apart (post_persons (VObject new_person_payload) init).2).
  apply run_post. apply run_refl.
Defined.

(** C2, as stated, does not hold: two [POST]s of [{name: [], number: "1"}]
    both succeed, and the array then holds two records with the name [[]]. *)
Lemma names_not_pairwise_distinct :
  ¬ (∀ st ps, reachable st → deref st = Some ps →
              NoDup (id <$> ps) ∧ NoDup (name <$> ps)).
Proof.
  intros H.
  set (st := (post_persons array_named_payload (post_persons array_named_payload init).2).2).
  destruct (H st (seed ++ [Person (VArray []) (VStr "1") 5; Person (VArray []) (VStr "1") 6]))
    as [_ Hnames].
  - apply run_post, run_post, run_refl.
  - reflexivity.
  - simpl in Hnames.
    do 4 (apply NoDup_cons in Hnames as [_ Hnames]).
    apply NoDup_cons in Hnames as [Hnotin _].
    apply Hnotin. left.
Qed.

(** ** [GET /api/persons/:id] *)

Lemma find_elem_of {A} (f : A → bool) (l : list A) (x : A) :
  List.find f l = Some x → x ∈ l ∧ f x = true.
Proof. intros [Hin Hf]%find_some. split; [by apply list_elem_of_In|exact Hf]. Qed.

Lemma find_none_elem_of {A} (f : A → bool) (l : list A) :
  List.find f l = None ↔ ∀ x, x ∈ l → f x = false.
Proof.
  induction l as [|a l IH]; simpl.
  - split; [intros _ x Hx; inversion Hx|done].
  - destruct (f a) eqn:Hfa.
    + split; [discriminate|]. intros H. rewrite H in Hfa; [discriminate|left].
    + rewrite IH. split.
      * intros H x [->|Hx]%elem_of_cons; auto.
      * intros H x Hx. apply H. by right.
Qed.

Lemma find_middle {A} (f : A → bool) (l1 l2 : list A) (x : A) :
  (∀ y, y ∈ l1 → f y = false) → f x = true →
  List.find f (l1 ++ x :: l2) = Some x.
Proof.
  intros Hl1 Hx. induction l1 as [|a l1 IH]; simpl.
  - by rewrite Hx.
  - rewrite (Hl1 a); [|left]. apply IH. intros y Hy. apply Hl1. by right.
Qed.

Lemma find_app_Some {A} (f : A → bool) (l1 l2 : list A) (x : A) :
  List.find f l1 = Some x → List.find f (l1 ++ l2) = Some x.
Proof.
  induction l1 as [|a l1 IH]; simpl; [discriminate|].
  destruct (f a); [done|exact IH].
Qed.

Lemma num_eqb_NaN_r (x : num) : num_eqb x NaN = false.
Proof. by destruct x. Qed.

(** A Number is [===] to at most one integer. *)
Lemma id_is_unique (x : num) (p q : person) :
  id_is x p = true → id_is x q = true → id p = id q.
Proof.
  unfold id_is, num_of_Z. destruct x as [| |t n f]; simpl; try discriminate.
  set (k := 0 `min` f).
  assert (Hpow : 0 < 2 ^ (0 - k)) by (apply Z.pow_pos_nonneg; lia).
  rewrite !N2Z.inj_abs_N.
  destruct (N.eqb_spec (Z.abs_N (id p)) 0) as [Hp|Hp],
           (N.eqb_spec (Z.abs_N (id q)) 0) as [Hq|Hq].
  - lia.
  - intros ->%N.eqb_eq [_ H%Z.eqb_eq]%andb_true_iff. simpl in H. nia.
  - intros [_ H%Z.eqb_eq]%andb_true_iff ->%N.eqb_eq. simpl in H. nia.
  - intros [Hs%bool_decide_eq_true H%Z.eqb_eq]%andb_true_iff
           [Hs'%bool_decide_eq_true H'%Z.eqb_eq]%andb_true_iff.
    rewrite <- H' in H. apply Z.mul_cancel_r in H; [|lia].
    destruct (Z.ltb_spec (id p) 0), (Z.ltb_spec (id q) 0); try congruence; lia.
Qed.

(** A string that begins with an ASCII character other than white space, a
    digit, a sign, the point and the [I] of [Infinity] is not numeric. *)
Lemma Number_non_numeric (c : ascii) (rest : string) :
  cannot_start_number c = true → Number (String c rest) = NaN.
Proof.
  intros Hc.
  destruct c as [b0 b1 b2 b3 b4 b5 b6 b7].
  destruct b0, b1, b2, b3, b4, b5, b6, b7; try discriminate Hc; clear Hc;
    destruct rest as [|c2 [|c3 r3]]; reflexivity.
Qed.

Lemma get_person_unfold (st : state) (ps : list person) (seg : string) :
  deref st = Some ps →
  get_person seg st =
    match List.find (id_is (Number seg)) ps with
    | Some person => Some (Response 200 (JsonPerson person), st)
    | None => Some (Response 404 NoBody, st)
    end.
Proof. intros Hps. unfold get_person. rewrite Hps. reflexivity. Qed.

(** C5. [GET /api/persons/:id] answers 200 with a record of the array whose
    id is [===] to [Number] of the segment when there is one, and 404 with
    no body when there is none; a segment that [Number] turns into [NaN]
    matches no id and gets the 404. *)
Theorem get_person_found_or_404 (st : state) (ps : list person) (seg : string) :
  deref st = Some ps →
  ((∃ p, p ∈ ps ∧ id_is (Number seg) p = true) →
   ∃ p, p ∈ ps ∧ id_is (Number seg) p = true ∧
        get_person seg st = Some (Response 200 (JsonPerson p), st)) ∧
  ((∀ p, p ∈ ps → id_is (Number seg) p = false) →
   get_person seg st = Some (Response 404 NoBody, st)) ∧
  (Number seg = NaN →
   (∀ p, p ∈ ps → id_is (Number seg) p = false) ∧
   get_person seg st = Some (Response 404 NoBody, st)).
Proof.
  intros Hps. rewrite (get_person_unfold st ps seg Hps).
  assert (Hnone : (∀ p, p ∈ ps → id_is (Number seg) p = false) →
                  match List.find (id_is (Number seg)) ps with
                  | Some person => Some (Response 200 (JsonPerson person), st)
                  | None => Some (Response 404 NoBody, st)
                  end = Some (Response 404 NoBody, st)).
  { intros H. apply find_none_elem_of in H. by rewrite H. }
  split; [|split].
  - intros (p & Hp & Hid).
    destruct (List.find (id_is (Number seg)) ps) as [p'|] eqn:Hfind.
    + apply find_elem_of in Hfind as [Hin Hf]. exists p'.
      split; [exact Hin|]. split; [exact Hf|reflexivity].
    + rewrite find_none_elem_of in Hfind. rewrite (Hfind p Hp) in Hid. discriminate.
  - exact Hnone.
  - intros HNaN.
    assert (H : ∀ p, p ∈ ps → id_is (Number seg) p = false).
    { intros p _. unfold id_is. rewrite HNaN. apply num_eqb_NaN_r. }
    split; [exact H|by apply Hnone].
Qed.

Lemma get_person_found_or_404_witness :
  (∃ p, p ∈ seed ∧ id_is (Number "3") p = true ∧
        get_person "3" init = Some (Response 200 (JsonPerson p), init)) ∧
  get_person "99" init = Some (Response 404 NoBody, init) ∧
  get_person "abc" init = Some (Response 404 NoBody, init).
Proof.
  split; [|split].
  - apply (proj1 (get_person_found_or_404 init seed "3" eq_refl)).
    exists (Person (VStr "Dan Abramov") (VStr "12-43-234345") 3).
    split; [unfold seed; do 2 right; left|reflexivity].
  - apply (proj1 (proj2 (get_person_found_or_404 init seed "99" eq_refl))).
    apply find_none_elem_of. reflexivity.
  - apply (proj2 (proj2 (get_person_found_or_404 init seed "abc" eq_refl))).
    apply Number_non_numeric. reflexivity.
Defined.

(** ** Records stay where they are *)

(** [POST]s only ever append: the array of a later state starts with the
    array of an earlier one. *)
Lemma run_extends (st1 st2 : state) (a : list person) :
  run st1 st2 → deref st1 = Some a → ∃ ext, deref st2 = Some (a ++ ext).
Proof.
  intros Hrun Ha. induction Hrun as [|st' body _ (ext & IH)].
  - exists []. by rewrite app_nil_r.
  - destruct (post_persons_state body st') as [->|(ps & n & m & Hps & _ & _ & ->)].
    + by exists ext.
    + rewrite IH in Hps. injection Hps as <-.
      exists (ext ++ [Person n m (generateId (a ++ ext))]).
      rewrite deref_appended. by rewrite app_assoc.
Qed.

Lemma get_person_keeps_state (seg : string) (st : state) (r : response) (st' : state) :
  get_person seg st = Some (r, st') → st' = st.
Proof.
  unfold get_person. destruct (deref st) as [ps|]; simpl; [|discriminate].
  destruct (List.find _ ps); by intros [= _ <-].
Qed.

Lemma get_persons_keeps_state (st : state) (r : response) (st' : state) :
  get_persons st = Some (r, st') → st' = st.
Proof.
  unfold get_persons. destruct (deref st) as [ps|]; simpl; [|discriminate].
  by intros [= _ <-].
Qed.

(** The record a [POST] has created is the one [GET /api/persons/:id] finds
    under its id, in the state the [POST] leaves and in every later one. *)
Lemma created_found (body : value) (st st1 st2 : state) (p : person) (seg : string) :
  post_persons body st = (Response 201 (JsonPerson p), st1) →
  run st1 st2 →
  id_is (Number seg) p = true →
  get_person seg st2 = Some (Response 200 (JsonPerson p), st2).
Proof.
  intros (ps & n & m & _ & _ & _ & _ & Hps & _ & [= ->] & ->)%post_persons_201_inv Hrun Hseg.
  set (p := Person n m (generateId ps)) in *.
  destruct (run_extends _ _ _ Hrun (deref_appended st ps p)) as (ext & Hext).
  rewrite (get_person_unfold _ _ _ Hext), <- app_assoc. simpl.
  rewrite find_middle; [reflexivity| |exact Hseg].
  intros q Hq. destruct (id_is (Number seg) q) eqn:Hqid; [|reflexivity].
  pose proof (id_is_unique _ _ _ Hqid Hseg) as Heq.
  pose proof (generateId_gt ps q Hq) as Hlt. simpl in Heq. lia.
Qed.

(** In a reachable state the array starts with the seed. *)
Lemma reachable_seed (st : state) :
  reachable st → ∃ ext, deref st = Some (seed ++ ext).
Proof. intros Hrun. by eapply run_extends. Qed.

(** C9. [Number] reads more than integer literals: in every reachable state
    the segments ["4.0"], [" 4"] and ["4e0"] get the record with id 4, with
    status 200. *)
Theorem get_person_number_coercion (st : state) :
  reachable st →
  let mary := Person (VStr "Mary Poppendieck") (VStr "39-23-6423122") 4 in
  get_person "4.0" st = Some (Response 200 (JsonPerson mary), st) ∧
  get_person " 4" st = Some (Response 200 (JsonPerson mary), st) ∧
  get_person "4e0" st = Some (Response 200 (JsonPerson mary), st).
Proof.
  intros (ext & Hext)%reachable_seed mary.
  rewrite !(get_person_unfold _ _ _ Hext).
  rewrite !(find_app_Some _ seed ext mary); [done|reflexivity..].
Qed.

Lemma get_person_number_coercion_witness :
  get_person "4.0" init
    = Some (Response 200 (JsonPerson (Person (VStr "Mary Poppendieck") (VStr "39-23-6423122") 4)), init) ∧
  get_person " 4" init
    = Some (Response 200 (JsonPerson (Person (VStr "Mary Poppendieck") (VStr "39-23-6423122") 4)), init) ∧
  get_person "4e0" init
    = Some (Response 200 (JsonPerson (Person (VStr "Mary Poppendieck") (VStr "39-23-6423122") 4)), init).
Proof. apply (get_person_number_coercion init). apply run_refl. Defined.

(** ** Server start *)

(** C7. The program does not do what the claim says: [PORT] is computed
    from the environment and then not used; [app.listen] gets the constant
    [port].  With [PORT=8080] in the environment [PORT] is ["8080"] and the
    server listens on 3001, as it does in every environment. *)
Theorem listen_ignores_PORT :
  PORT {[ "PORT" := "8080" ]} = VStr "8080" ∧
  listen {[ "PORT" := "8080" ]} = VNum (num_of_Z 3001) ∧
  ∀ env, listen env = VNum (num_of_Z 3001).
Proof. split; [reflexivity|]. split; reflexivity. Qed.

(** ** The decimal spelling of an id *)

Lemma hex_val_digit (d : N) :
  (d < 10)%N → hex_val (ascii_of_N (48 + d)) = Some d ∧ is_digit (ascii_of_N (48 + d)) = true.
Proof.
  intros H.
  assert (Hd : d ∈ [0; 1; 2; 3; 4; 5; 6; 7; 8; 9]%N).
  { destruct d as [|p]; [set_solver|].
    repeat (destruct p as [p|p|]; try lia; try set_solver). }
  repeat (apply elem_of_cons in Hd as [->|Hd]; [split; reflexivity|]).
  inversion Hd.
Qed.

Lemma digits_of_all_digits (fuel : nat) (n : N) (acc : string) :
  all_digits acc = true → all_digits (digits_of fuel n acc) = true.
Proof.
  revert n acc. induction fuel as [|fuel IH]; intros n acc Hacc; simpl; [exact Hacc|].
  assert (Hacc' : all_digits (String (ascii_of_N (48 + n mod 10)) acc) = true).
  { simpl. rewrite Hacc, andb_true_r. apply hex_val_digit.
    apply N.mod_lt. lia. }
  destruct (n <? 10)%N; [exact Hacc'|by apply IH].
Qed.

Lemma digits_of_nonempty (fuel : nat) (n : N) (acc : string) :
  digits_of (S fuel) n acc ≠ EmptyString.
Proof.
  revert n acc. induction fuel as [|fuel IH]; intros n acc.
  - simpl. by destruct (n <? 10)%N.
  - change (digits_of (S (S fuel)) n acc) with
      (if (n <? 10)%N then String (ascii_of_N (48 + n mod 10)) acc
       else digits_of (S fuel) (n / 10) (String (ascii_of_N (48 + n mod 10)) acc)).
    destruct (n <? 10)%N; [done|apply IH].
Qed.

(** Reading back what [digits_of] wrote. *)
Lemma read_digits_of (fuel : nat) (n : N) (acc : string) (a c : N) :
  (n < 2 ^ N.of_nat (S fuel))%N →
  ∃ k, (0 < k)%N ∧
    read_digits 10 (digits_of (S fuel) n acc) a c
      = read_digits 10 acc (a * 10 ^ k + n)%N (c + k)%N.
Proof.
  revert n acc a c. induction fuel as [|fuel IH]; intros n acc a c Hn.
  - exists 1%N. split; [lia|].
    assert (Hlt : (n < 10)%N) by (simpl in Hn; lia).
    simpl. rewrite (proj2 (N.ltb_lt _ _) Hlt). simpl.
    rewrite N.mod_small by exact Hlt.
    rewrite (proj1 (hex_val_digit n Hlt)), (proj2 (N.ltb_lt _ _) Hlt).
    by rewrite N.pow_1_r.
  - change (digits_of (S (S fuel)) n acc) with
      (if (n <? 10)%N then String (ascii_of_N (48 + n mod 10)) acc
       else digits_of (S fuel) (n / 10) (String (ascii_of_N (48 + n mod 10)) acc)).
    assert (Hmod : (n mod 10 < 10)%N) by (apply N.mod_lt; lia).
    destruct (N.ltb_spec n 10) as [Hlt|Hge].
    + exists 1%N. split; [lia|]. simpl.
      rewrite N.mod_small by exact Hlt.
      rewrite (proj1 (hex_val_digit n Hlt)), (proj2 (N.ltb_lt _ _) Hlt).
      by rewrite N.pow_1_r.
    + destruct (IH (n / 10)%N (String (ascii_of_N (48 + n mod 10)) acc) a c)
        as (k & Hk & ->).
      { apply N.Div0.div_lt_upper_bound.
        rewrite Nat2N.inj_succ, N.pow_succ_r' in Hn. lia. }
      exists (k + 1)%N. split; [lia|]. simpl.
      rewrite (proj1 (hex_val_digit _ Hmod)), (proj2 (N.ltb_lt _ _) Hmod).
      f_equal; [|lia].
      rewrite N.pow_add_r, N.pow_1_r.
      pose proof (N.div_mod n 10). lia.
Qed.

Lemma read_unsigned_decimal_digits (neg : bool) (s : string) (n k : N) :
  all_digits s = true → s ≠ EmptyString →
  read_digits 10 s 0%N 0%N = (n, k, EmptyString) → (0 < k)%N →
  read_unsigned_decimal neg s = Some (round_decimal neg n 0, EmptyString).
Proof.
  intros Hs Hne Hread Hk. unfold read_unsigned_decimal.
  assert (strip_prefix "Infinity" s = None) as ->.
  { destruct s as [|c r]; [done|]. simpl in Hs. apply andb_true_iff in Hs as [Hc _].
    digit_cases c Hc; reflexivity. }
  rewrite Hread. simpl.
  rewrite N.add_0_r. destruct (N.eqb_spec k 0) as [->|_]; [lia|]. reflexivity.
Qed.

Lemma Number_digits (s : string) (n k : N) :
  all_digits s = true → s ≠ EmptyString →
  read_digits 10 s 0%N 0%N = (n, k, EmptyString) → (0 < k)%N →
  Number s = round_decimal false n 0 ∧
  Number (String "-" s) = round_decimal true n 0.
Proof.
  intros Hs Hne Hread Hk.
  pose proof (read_unsigned_decimal_digits false s n k Hs Hne Hread Hk) as Hpos.
  pose proof (read_unsigned_decimal_digits true s n k Hs Hne Hread Hk) as Hneg.
  destruct s as [|c r]; [done|].
  pose proof Hs as Hs'. simpl in Hs'. apply andb_true_iff in Hs' as [Hc Hr].
  assert (Hskip : skip_ws (String c r) = String c r).
  { clear -Hc. digit_cases c Hc; destruct r as [|c2 [|c3 r3]]; reflexivity. }
  assert (Hnd : read_non_decimal (String c r) = None).
  { clear -Hc Hr. destruct r as [|c2 r2]; [by digit_cases c Hc|].
    simpl in Hr. apply andb_true_iff in Hr as [Hc2 _].
    digit_cases c Hc; try reflexivity; digit_cases c2 Hc2; reflexivity. }
  split.
  - unfold Number. rewrite Hskip.
    assert (read_numeric_literal (String c r) = Some (round_decimal false n 0, EmptyString)) as ->.
    { unfold read_numeric_literal. rewrite Hnd, <- Hpos.
      clear -Hc. digit_cases c Hc; reflexivity. }
    reflexivity.
  - unfold Number.
    assert (skip_ws (String "-" (String c r)) = String "-" (String c r)) as ->.
    { destruct r; reflexivity. }
    assert (read_numeric_literal (String "-" (String c r))
            = Some (round_decimal true n 0, EmptyString)) as ->.
    { unfold read_numeric_literal. rewrite <- Hneg. reflexivity. }
    reflexivity.
Qed.

(** A positive integer below [2^53] is its own nearest binary64 value. *)
Lemma round_ratio_integer (neg : bool) (n : Z) :
  0 < n < 2 ^ 53 →
  ∃ q, q ≤ 0 ∧ round_ratio neg n 1 = Fin neg (Z.to_N (n * 2 ^ (- q))) q.
Proof.
  intros Hn.
  pose proof (Z.log2_spec n (proj1 Hn)) as [Hlo Hhi].
  pose proof (Z.log2_nonneg n) as Hl0.
  assert (Hl52 : Z.log2 n ≤ 52).
  { destruct (Z_le_gt_dec (Z.log2 n) 52) as [|Hgt]; [done|].
    assert (2 ^ 53 ≤ 2 ^ Z.log2 n) by (apply Z.pow_le_mono_r; lia). lia. }
  unfold round_ratio. cbv zeta beta. change (Z.log2 1) with 0.
  set (q0 := Z.log2 n - 0 - 52).
  assert (Hscaled : (if 0 <=? q0 then (n, 1 * 2 ^ q0) else (n * 2 ^ (- q0), 1))
                    = (n * 2 ^ (- q0), 1)).
  { destruct (Z.leb_spec 0 q0) as [Hq|Hq]; [|reflexivity].
    assert (q0 = 0) as -> by lia. simpl. f_equal. lia. }
  assert (Ha : 2 ^ 52 ≤ n * 2 ^ (- q0)).
  { replace 52 with (Z.log2 n + - q0) at 1 by lia.
    rewrite Z.pow_add_r by lia.
    apply Z.mul_le_mono_nonneg_r; [apply Z.pow_nonneg; lia|exact Hlo]. }
  rewrite Hscaled, Z.div_1_r.
  destruct (Z.ltb_spec (n * 2 ^ (- q0)) (2 ^ 52)) as [Hlt|_]; [lia|].
  rewrite (Z.max_l q0 (-1074)) by lia. rewrite Hscaled.
  rewrite Z.div_1_r, Z.mod_1_r.
  change (1 <? 2 * 0) with false. change (1 =? 2 * 0) with false.
  destruct (Z.ltb_spec 971 q0) as [Hlt|_]; [lia|].
  destruct (Z.eqb_spec q0 971) as [Heq|_]; [lia|].
  exists q0. split; [lia|reflexivity].
Qed.

(** An integer of magnitude below [2^53] survives rounding. *)
Lemma round_decimal_exact (z : Z) :
  - 2 ^ 53 < z < 2 ^ 53 →
  num_eqb (num_of_Z z) (round_decimal (z <? 0) (Z.abs_N z) 0) = true.
Proof.
  intros Hz. unfold round_decimal, num_of_Z.
  destruct (N.eqb_spec (Z.abs_N z) 0) as [H0|H0].
  { rewrite H0. reflexivity. }
  change (0 <=? 0) with true. cbv iota.
  rewrite N2Z.inj_abs_N, Z.pow_0_r, Z.mul_1_r.
  destruct (round_ratio_integer (z <? 0) (Z.abs z)) as (q & Hq & ->); [lia|].
  simpl. destruct (N.eqb_spec (Z.abs_N z) 0) as [|_]; [done|].
  rewrite bool_decide_eq_true_2 by reflexivity. simpl.
  assert (0 < 2 ^ (- q)) by (apply Z.pow_pos_nonneg; lia).
  rewrite N2Z.inj_abs_N, Z2N.id by lia.
  rewrite Z.min_r by lia. rewrite Z.sub_diag, Z.pow_0_r.
  apply Z.eqb_eq. rewrite Z.sub_0_l. lia.
Qed.

(** [Number] reads the decimal spelling of an integer of magnitude below
    [2^53] as that integer. *)
Lemma Number_decimal (z : Z) :
  - 2 ^ 53 < z < 2 ^ 53 → num_eqb (num_of_Z z) (Number (decimal z)) = true.
Proof.
  intros Hz. unfold decimal.
  set (n := Z.abs_N z). set (fuel := N.to_nat (N.log2 n)).
  destruct (read_digits_of fuel n EmptyString 0 0) as (k & Hk & Hread).
  { unfold fuel. rewrite Nat2N.inj_succ, N2Nat.id.
    destruct (N.eq_dec n 0) as [->|Hn]; [done|].
    apply N.log2_spec. lia. }
  simpl (read_digits 10 EmptyString _ _) in Hread.
  replace (0 * 10 ^ k + n)%N with n in Hread by lia.
  destruct (Number_digits (digits_of (S fuel) n EmptyString) n (0 + k)) as [Hpos Hneg].
  - by apply digits_of_all_digits.
  - apply digits_of_nonempty.
  - exact Hread.
  - lia.
  - pose proof (round_decimal_exact z Hz) as Hexact. fold n in Hexact.
    destruct (z <? 0); [rewrite Hneg|rewrite Hpos]; exact Hexact.
Qed.

(** C6. The record a successful [POST /api/persons] returns is the record
    [GET /api/persons/:id] returns, with status 200, for every segment that
    [Number] reads as the record's id, in the state the [POST] leaves and
    after any further [POST]s; the decimal spelling of the id is such a
    segment (ids stay far below [2^53]). *)
Theorem created_record_retrievable (body : value) (st st1 st2 : state) (p : person) :
  post_persons body st = (Response 201 (JsonPerson p), st1) →
  run st1 st2 →
  (∀ seg, id_is (Number seg) p = true →
          get_person seg st2 = Some (Response 200 (JsonPerson p), st2)) ∧
  (- 2 ^ 53 < id p < 2 ^ 53 →
   get_person (decimal (id p)) st2 = Some (Response 200 (JsonPerson p), st2)).
Proof.
  intros Hpost Hrun. split.
  - intros seg Hseg. by eapply created_found.
  - intros Hid. eapply created_found; [exact Hpost|exact Hrun|].
    by apply Number_decimal.
Qed.

Lemma created_record_retrievable_witness :
  let st1 := (post_persons (VObject new_person_payload) init).2 in
  let st2 := (post_persons array_named_payload st1).2 in
  get_person "5" st2
    = Some (Response 200 (JsonPerson (Person (VStr "New Person") (VStr "000") 5)), st2) ∧
  get_person (decimal 5) st2
    = Some (Response 200 (JsonPerson (Person (VStr "New Person") (VStr "000") 5)), st2).
Proof.
  intros st1 st2.
  destruct (created_record_retrievable (VObject new_person_payload) init st1 st2
              (Person (VStr "New Person") (VStr "000") 5)) as [Hany Hdec].
  - reflexivity.
  - apply run_post, run_refl.
  - split.
    + apply Hany. reflexivity.
    + apply Hdec. simpl. lia.
Defined.

(** ** The scenario of the specification *)

Example decimal_examples :
  decimal 5 = "5" ∧ decimal 120 = "120" ∧ decimal 0 = "0" ∧ decimal (-42) = "-42".
Proof. repeat split. Qed.

Example Number_examples :
  Number "abc" = NaN ∧ Number "12px" = NaN ∧ Number "1e" = NaN ∧
  Number "0x1F" = Fin false 8725724278030336 (-48) ∧
  num_eqb (Number "0x1F") (num_of_Z 31) = true ∧
  num_eqb (Number "4.0000000000000000000001") (num_of_Z 4) = true ∧
  num_eqb (Number "9007199254740993") (num_of_Z 9007199254740992) = true ∧
  Number "1e309" = Inf false.
Proof. repeat split. Qed.

Example scenario :
  let mary := VObject [("name", VStr "Mary Poppendieck"); ("number", VStr "1")] in
  post_persons mary init = (Response 409 (JsonError "name already exists"), init) ∧
  (post_persons (VObject new_person_payload) init).1
    = Response 201 (JsonPerson (Person (VStr "New Person") (VStr "000") 5)) ∧
  post_persons (VObject []) init
    = (Response 400 (JsonError "name or number missing"), init) ∧
  get_person "99" init = Some (Response 404 NoBody, init) ∧
  get_persons (post_persons (VObject new_person_payload) init).2
    = Some (Response 200 (JsonPersons
              (seed ++ [Person (VStr "New Person") (VStr "000") 5])),
            (post_persons (VObject new_person_payload) init).2).
Proof. repeat split. Qed.

(** * Further properties of the handlers *)

(** ** Helpers *)

Lemma reachable_collection_ok (st : state) : reachable st → collection_ok st.
Proof.
  intros Hrun. induction Hrun as [|st' body _ IH]; [apply collection_ok_init|].
  by apply collection_ok_post.
Qed.

Lemma strict_eq_VStr_r (v : value) (t : string) :
  strict_eq v (VStr t) = true ↔ v = VStr t.
Proof.
  destruct v; simpl; try (split; [discriminate|intros [=]]).
  rewrite String.eqb_eq. split; [by intros ->|by intros [= ->]].
Qed.

Lemma post_persons_409 (body n m : value) (st : state) (ps : list person) :
  get_prop "name" body = Some n → get_prop "number" body = Some m →
  truthy n = true → truthy m = true →
  deref st = Some ps →
  existsb (λ q, strict_eq (name q) n) ps = true →
  post_persons body st = (Response 409 (JsonError "name already exists"), st).
Proof.
  intros Hn Hm Tn Tm Hps Hex. unfold post_persons, try_post_persons.
  rewrite Hn, Hm. simpl. rewrite Tn, Tm. simpl. rewrite Hps. simpl.
  by rewrite Hex.
Qed.

Lemma post_persons_500 (body : value) (st : state) :
  nullish body = true →
  post_persons body st
    = (Response 500 (JsonError "An unexpected error occurred on the server."), st).
Proof. by destruct body. Qed.

Lemma get_prop_not_nullish (k : string) (body : value) :
  nullish body = false → ∃ v, get_prop k body = Some v.
Proof. destruct body; try discriminate; intros _; eauto. Qed.

Lemma get_persons_unfold (st : state) (ps : list person) :
  deref st = Some ps → get_persons st = Some (Response 200 (JsonPersons ps), st).
Proof. intros Hps. unfold get_persons. by rewrite Hps. Qed.

Lemma get_persons_deref (st st' : state) (ps : list person) :
  get_persons st = Some (Response 200 (JsonPersons ps), st') → deref st = Some ps.
Proof.
  unfold get_persons. destruct (deref st) as [a|]; simpl; [|discriminate].
  by intros [= ->].
Qed.

Lemma serve_posts_run (bodies : list value) (st : state) :
  run st (serve_posts bodies st).2.
Proof.
  assert (Hgen : ∀ st0, run st0 st → run st0 (serve_posts bodies st).2).
  { revert st. induction bodies as [|body rest IH]; intros st st0 Hrun; [exact Hrun|].
    simpl. destruct (post_persons body st) as [r st1] eqn:Hpost.
    specialize (IH st1 st0). destruct (serve_posts rest st1) as [rs st2]. simpl in *.
    apply IH. change st1 with (r, st1).2. rewrite <- Hpost. by apply run_post. }
  apply Hgen, run_refl.
Qed.

(** What one [POST] does to the array, by response. *)
Lemma post_persons_array (body : value) (st : state) (ps : list person) :
  deref st = Some ps →
  deref (post_persons body st).2 = Some (ps ++ created [(post_persons body st).1]).
Proof.
  intros Hps. unfold post_persons, try_post_persons.
  destruct (get_prop "name" body) as [n|]; simpl; [|by rewrite app_nil_r].
  destruct (get_prop "number" body) as [m|]; simpl; [|by rewrite app_nil_r].
  destruct (negb (truthy n) || negb (truthy m)); simpl; [by rewrite app_nil_r|].
  rewrite Hps. simpl.
  destruct (existsb _ ps); simpl; [by rewrite app_nil_r|].
  apply (deref_appended st ps).
Qed.

Lemma created_cons (r : response) (rs : list response) :
  created (r :: rs) = created [r] ++ created rs.
Proof. unfold created. apply (omap_app _ [r] rs). Qed.

Lemma serve_posts_array (bodies : list value) (st : state) (ps : list person) :
  deref st = Some ps →
  deref (serve_posts bodies st).2 = Some (ps ++ created (serve_posts bodies st).1).
Proof.
  revert st ps. induction bodies as [|body rest IH]; intros st ps Hps.
  - simpl. by rewrite app_nil_r.
  - pose proof (post_persons_array body st ps Hps) as Hone.
    cbn [serve_posts]. destruct (post_persons body st) as [r st1].
    cbn [fst snd] in Hone.
    specialize (IH st1 _ Hone). destruct (serve_posts rest st1) as [rs st2].
    cbn [fst snd] in *. by rewrite IH, <- app_assoc, <- created_cons.
Qed.

(** ** The listing *)

(** X1. Records are never removed, changed or reordered: whatever [POST]s
    come between two [GET /api/persons], the later listing is the earlier
    one followed by zero or more records. *)
Theorem listing_only_grows (st1 st2 : state) (a : list person) :
  run st1 st2 →
  get_persons st1 = Some (Response 200 (JsonPersons a), st1) →
  ∃ ext, get_persons st2 = Some (Response 200 (JsonPersons (a ++ ext)), st2).
Proof.
  intros Hrun Ha%get_persons_deref.
  destruct (run_extends st1 st2 a Hrun Ha) as (ext & Hext).
  exists ext. by apply get_persons_unfold.
Qed.

Lemma listing_only_grows_witness :
  ∃ ext, get_persons (post_persons (VObject new_person_payload) init).2
         = Some (Response 200 (JsonPersons (seed ++ ext)),
                 (post_persons (VObject new_person_payload) init).2).
Proof.
  apply (listing_only_grows init).
  - apply run_post, run_refl.
  - reflexivity.
Defined.

(** X2. After any sequence of [POST]s, [GET /api/persons] lists the records
    that were there before followed by exactly the records the 201 responses
    returned, in the order of the requests; requests answered 400, 409 or 500
    leave no trace. *)
Theorem listing_after_posts (bodies : list value) (st : state) (ps : list person) :
  deref st = Some ps →
  let '(rs, st') := serve_posts bodies st in
  length rs = length bodies ∧
  get_persons st' = Some (Response 200 (JsonPersons (ps ++ created rs)), st').
Proof.
  intros Hps. pose proof (serve_posts_array bodies st ps Hps) as Harr.
  assert (Hlen : length (serve_posts bodies st).1 = length bodies).
  { clear. revert st. induction bodies as [|body rest IH]; intros st; [done|].
    cbn [serve_posts]. destruct (post_persons body st) as [r st1].
    specialize (IH st1). destruct (serve_posts rest st1). simpl in *. by rewrite IH. }
  destruct (serve_posts bodies st) as [rs st']. cbn [fst snd] in *.
  split; [exact Hlen|by apply get_persons_unfold].
Qed.

Lemma listing_after_posts_witness :
  let '(rs, st') :=
    serve_posts [VObject new_person_payload; VObject []; VUndefined;
                 VObject new_person_payload; array_named_payload] init in
  length rs = 5%nat ∧
  get_persons st' = Some (Response 200 (JsonPersons (seed ++ created rs)), st').
Proof.
  apply (listing_after_posts
           [VObject new_person_payload; VObject []; VUndefined;
            VObject new_person_payload; array_named_payload] init seed).
  reflexivity.
Defined.

(** ** The outcomes of [POST /api/persons] *)

(** X3. When [persons] refers to an array, a [POST /api/persons] has one of
    four outcomes.  It answers 500 exactly when the body is [undefined] or
    [null].  It answers 400, 409 or 500 with one of the three fixed error
    messages and leaves the state as it was, or it answers 201 with a record
    and the array has that record appended. *)
Theorem post_persons_outcomes (body : value) (st : state) (ps : list person) :
  deref st = Some ps →
  let '(r, st') := post_persons body st in
  (status r = 500 ↔ nullish body = true) ∧
  ((status r ∈ [400; 409; 500] ∧ st' = st ∧
    ∃ msg, sent r = JsonError msg ∧ msg ∈ error_messages) ∨
   (status r = 201 ∧ ∃ p, sent r = JsonPerson p ∧ deref st' = Some (ps ++ [p]))).
Proof.
  intros Hps.
  destruct (nullish body) eqn:Hnull.
  { rewrite (post_persons_500 body st Hnull). split; [done|]. left.
    split; [set_solver|]. split; [done|]. eexists. split; [done|].
    unfold error_messages. set_solver. }
  destruct (get_prop_not_nullish "name" body Hnull) as [n Hn].
  destruct (get_prop_not_nullish "number" body Hnull) as [m Hm].
  destruct (truthy n) eqn:Tn; [destruct (truthy m) eqn:Tm|].
  - destruct (existsb (λ q, strict_eq (name q) n) ps) eqn:Hex.
    + rewrite (post_persons_409 body n m st ps); try done.
      split; [done|]. left. split; [set_solver|]. split; [done|].
      eexists. split; [done|]. unfold error_messages. set_solver.
    + rewrite (post_persons_created body n m st ps); try done.
      split; [done|]. right. split; [done|]. eexists. split; [done|].
      apply deref_appended.
  - rewrite (post_persons_400 st body n m); [|done|done|by right].
    split; [done|]. left. split; [set_solver|]. split; [done|].
    eexists. split; [done|]. unfold error_messages. set_solver.
  - rewrite (post_persons_400 st body n m); [|done|done|by left].
    split; [done|]. left. split; [set_solver|]. split; [done|].
    eexists. split; [done|]. unfold error_messages. set_solver.
Qed.

Lemma post_persons_outcomes_witness :
  let '(r, st') := post_persons VNull init in
  (status r = 500 ↔ nullish VNull = true) ∧
  ((status r ∈ [400; 409; 500] ∧ st' = init ∧
    ∃ msg, sent r = JsonError msg ∧ msg ∈ error_messages) ∨
   (status r = 201 ∧ ∃ p, sent r = JsonPerson p ∧ deref st' = Some (seed ++ [p]))).
Proof. apply (post_persons_outcomes VNull init seed). reflexivity. Defined.

(** ** The heap *)

(** X4. No [POST] ever writes to or frees an array: whatever requests are
    served, every array of the heap is still there with the same records,
    and [persons] still refers to an array. *)
Theorem arrays_never_change (st1 st2 : state) :
  run st1 st2 →
  (∀ l a, heap st1 !! l = Some a → heap st2 !! l = Some a) ∧
  (is_Some (deref st1) → is_Some (deref st2)).
Proof.
  intros Hrun. induction Hrun as [|st' body _ [IHheap IHderef]].
  - done.
  - destruct (post_persons_state body st') as [->|(ps & n & m & Hps & _ & _ & ->)].
    + done.
    + split.
      * intros l a Hl%IHheap. unfold appended. simpl.
        rewrite lookup_insert_ne; [exact Hl|]. intros <-.
        pose proof (is_fresh (dom (heap st'))) as Hfresh.
        apply not_elem_of_dom in Hfresh. congruence.
      * intros _. rewrite deref_appended. eauto.
Qed.

Lemma arrays_never_change_witness :
  (∀ l a, heap init !! l = Some a →
          heap (serve_posts [VObject new_person_payload; array_named_payload] init).2 !! l
            = Some a) ∧
  (is_Some (deref init) →
   is_Some (deref (serve_posts [VObject new_person_payload; array_named_payload] init).2)).
Proof.
  apply (arrays_never_change init).
  apply serve_posts_run.
Defined.

(** ** [GET /info] *)

(** X5. [GET /info] answers 200 with the template filled with the length of
    the array and leaves the state alone; after any sequence of [POST]s the
    count it shows is the count before plus the number of 201 responses. *)
Theorem info_counts_created (bodies : list value) (now : string)
    (st : state) (ps : list person) :
  deref st = Some ps →
  get_info now st = Some (Response 200 (Html (info_page (length ps) now)), st) ∧
  let '(rs, st') := serve_posts bodies st in
  get_info now st'
    = Some (Response 200 (Html (info_page (length ps + length (created rs)) now)), st').
Proof.
  intros Hps. split.
  - unfold get_info. by rewrite Hps.
  - pose proof (serve_posts_array bodies st ps Hps) as Harr.
    destruct (serve_posts bodies st) as [rs st']. cbn [fst snd] in Harr.
    unfold get_info. rewrite Harr. simpl. by rewrite length_app.
Qed.

Lemma info_counts_created_witness :
  get_info "Mon Nov 02 2026" init
    = Some (Response 200 (Html (info_page 4 "Mon Nov 02 2026")), init) ∧
  let '(rs, st') := serve_posts [VObject new_person_payload; VObject []] init in
  get_info "Mon Nov 02 2026" st'
    = Some (Response 200
              (Html (info_page (4 + length (created rs)) "Mon Nov 02 2026")), st').
Proof.
  apply (info_counts_created [VObject new_person_payload; VObject []]
           "Mon Nov 02 2026" init seed).
  reflexivity.
Defined.

(** ** The ids the server issues *)

Lemma generateId_consecutive (ps : list person) :
  consecutive ps → generateId ps = Z.of_nat (length ps) + 1.
Proof.
  intros Hc. destruct (decide (ps = [])) as [->|Hne]; [reflexivity|].
  destruct (generateId_max ps Hne) as (q & Hq & -> & Hmax).
  apply list_elem_of_lookup in Hq as [i Hi].
  pose proof (lookup_lt_Some _ _ _ Hi) as Hlt.
  rewrite (Hc i q Hi).
  destruct (lookup_lt_is_Some_2 ps (length ps - 1)) as [r Hr].
  { destruct ps; [done|simpl; lia]. }
  pose proof (Hmax r (list_elem_of_lookup_2 _ _ _ Hr)) as Hle.
  rewrite (Hc _ r Hr), (Hc i q Hi) in Hle. lia.
Qed.

Lemma consecutive_snoc (ps : list person) (n m : value) :
  consecutive ps → consecutive (ps ++ [Person n m (generateId ps)]).
Proof.
  intros Hc i p [[_ Hi]|[-> <-]]%lookup_snoc_Some; [by apply Hc|].
  simpl. by apply generateId_consecutive.
Qed.

Lemma consecutive_seed : consecutive seed.
Proof.
  intros i p Hi. destruct i as [|[|[|[|i]]]]; try discriminate Hi;
    by injection Hi as <-.
Qed.

Lemma run_consecutive (st1 st2 : state) (a : list person) :
  run st1 st2 → deref st1 = Some a → consecutive a →
  ∃ b, deref st2 = Some b ∧ consecutive b.
Proof.
  intros Hrun Ha Hc. induction Hrun as [|st' body _ (b & Hb & Hcb)]; [by exists a|].
  destruct (post_persons_state body st') as [->|(ps & n & m & Hps & _ & _ & ->)].
  - by exists b.
  - rewrite Hb in Hps. injection Hps as <-.
    exists (b ++ [Person n m (generateId b)]).
    split; [apply deref_appended|by apply consecutive_snoc].
Qed.

Lemma reachable_consecutive (st : state) (ps : list person) :
  reachable st → deref st = Some ps → consecutive ps.
Proof.
  intros Hrun Hps.
  destruct (run_consecutive init st seed Hrun eq_refl consecutive_seed) as (b & Hb & Hc).
  rewrite Hps in Hb. by injection Hb as <-.
Qed.

Lemma run_trans (st1 st2 st3 : state) : run st1 st2 → run st2 st3 → run st1 st3.
Proof.
  intros H12 H23. induction H23 as [|st' body _ IH]; [exact H12|].
  by apply run_post.
Qed.

(** A Number is the id of at most one integer. *)
Lemma num_eqb_of_Z_unique (x : num) (a b : Z) :
  num_eqb (num_of_Z a) x = true → num_eqb (num_of_Z b) x = true → a = b.
Proof.
  intros Ha Hb.
  apply (id_is_unique x (Person VNull VNull a) (Person VNull VNull b)); assumption.
Qed.

(** X6. In every state reachable from the seed, the record at index [i] of
    the array has id [i + 1], and the id the next successful [POST] will
    issue is the length of the array plus 1: ids are issued in sequence,
    without gaps. *)
Theorem ids_count_up (st : state) :
  reachable st →
  ∃ ps, deref st = Some ps ∧
        (∀ i p, ps !! i = Some p → id p = Z.of_nat i + 1) ∧
        generateId ps = Z.of_nat (length ps) + 1.
Proof.
  intros Hrun.
  destruct (reachable_collection_ok st Hrun) as (ps & Hps & _).
  pose proof (reachable_consecutive st ps Hrun Hps) as Hc.
  exists ps. split; [exact Hps|]. split; [exact Hc|by apply generateId_consecutive].
Qed.

Lemma ids_count_up_witness :
  ∃ ps, deref (serve_posts [VObject new_person_payload; VObject [];
                            array_named_payload] init).2 = Some ps ∧
        (∀ i p, ps !! i = Some p → id p = Z.of_nat i + 1) ∧
        generateId ps = Z.of_nat (length ps) + 1.
Proof. apply ids_count_up. apply serve_posts_run. Defined.

(** X7. A failed [POST] consumes no id: when a sequence of [POST]s is served
    in a reachable state whose array has [n] records, the [k]-th record
    created (counting from 0) has id [n + k + 1], however many requests were
    rejected in between. *)
Theorem created_ids_in_sequence (bodies : list value) (st : state) (ps : list person) :
  reachable st → deref st = Some ps →
  ∀ k p, created (serve_posts bodies st).1 !! k = Some p →
         id p = Z.of_nat (length ps + k) + 1.
Proof.
  intros Hrun Hps k p Hk.
  pose proof (serve_posts_array bodies st ps Hps) as Harr.
  assert (Hrun' : reachable (serve_posts bodies st).2).
  { eapply run_trans; [exact Hrun|apply serve_posts_run]. }
  apply (reachable_consecutive _ _ Hrun' Harr).
  rewrite lookup_app_r by lia.
  by replace (length ps + k - length ps)%nat with k by lia.
Qed.

Lemma created_ids_in_sequence_witness :
  created (serve_posts [VObject []; VObject new_person_payload; VUndefined;
                        array_named_payload] init).1 !! 1%nat
    = Some (Person (VArray []) (VStr "1") 6) ∧
  id (Person (VArray []) (VStr "1") 6) = Z.of_nat (length seed + 1) + 1.
Proof.
  split; [reflexivity|].
  apply (created_ids_in_sequence
           [VObject []; VObject new_person_payload; VUndefined; array_named_payload]
           init seed (run_refl init) eq_refl 1%nat).
  reflexivity.
Defined.

(** ** Looking records up *)

(** X8. In every reachable state, every record of the array, seed records
    included, is what [GET /api/persons/:id] returns, with status 200, for
    the decimal spelling of its id (as long as the array has fewer than
    [2^53] records). *)
Theorem stored_record_retrievable (st : state) (ps : list person) (p : person) :
  reachable st → deref st = Some ps → p ∈ ps →
  Z.of_nat (length ps) < 2 ^ 53 →
  get_person (decimal (id p)) st = Some (Response 200 (JsonPerson p), st).
Proof.
  intros Hrun Hps Hp Hlen.
  pose proof (reachable_consecutive st ps Hrun Hps) as Hc.
  apply list_elem_of_lookup in Hp as [i Hi].
  pose proof (lookup_lt_Some _ _ _ Hi) as Hlt.
  assert (Hid : id_is (Number (decimal (id p))) p = true).
  { apply Number_decimal. rewrite (Hc i p Hi). lia. }
  rewrite (get_person_unfold st ps _ Hps).
  destruct (List.find (id_is (Number (decimal (id p)))) ps) as [p'|] eqn:Hfind.
  - apply find_elem_of in Hfind as [[j Hj]%list_elem_of_lookup Hid'].
    pose proof (id_is_unique _ _ _ Hid Hid') as Heq.
    rewrite (Hc i p Hi), (Hc j p' Hj) in Heq.
    assert (j = i) as -> by lia. congruence.
  - rewrite find_none_elem_of in Hfind.
    rewrite (Hfind p (list_elem_of_lookup_2 _ _ _ Hi)) in Hid. discriminate.
Qed.

Lemma stored_record_retrievable_witness :
  get_person (decimal 2) init
    = Some (Response 200 (JsonPerson (Person (VStr "Ada Lovelace") (VStr "39-44-5323523") 2)),
            init).
Proof.
  apply (stored_record_retrievable init seed
           (Person (VStr "Ada Lovelace") (VStr "39-44-5323523") 2)).
  - apply run_refl.
  - reflexivity.
  - unfold seed. right. left.
  - simpl. lia.
Defined.

(** X9. In every reachable state, an integer that is not between 1 and the
    number of records is the id of no record: [GET /api/persons/:id] with
    its decimal spelling answers 404 with no body. *)
Theorem unissued_id_not_found (st : state) (ps : list person) (z : Z) :
  reachable st → deref st = Some ps →
  z ≤ 0 ∨ Z.of_nat (length ps) < z →
  - 2 ^ 53 < z < 2 ^ 53 →
  get_person (decimal z) st = Some (Response 404 NoBody, st).
Proof.
  intros Hrun Hps Hz Hbound.
  pose proof (reachable_consecutive st ps Hrun Hps) as Hc.
  rewrite (get_person_unfold st ps _ Hps).
  assert (List.find (id_is (Number (decimal z))) ps = None) as ->; [|done].
  apply find_none_elem_of. intros p [i Hi]%list_elem_of_lookup.
  destruct (id_is (Number (decimal z)) p) eqn:Hid; [|done].
  pose proof (num_eqb_of_Z_unique _ _ _ Hid (Number_decimal z Hbound)) as Heq.
  pose proof (lookup_lt_Some _ _ _ Hi) as Hlt.
  rewrite (Hc i p Hi) in Heq. lia.
Qed.

Lemma unissued_id_not_found_witness :
  get_person (decimal 99) init = Some (Response 404 NoBody, init) ∧
  get_person (decimal 0) init = Some (Response 404 NoBody, init) ∧
  get_person (decimal (-1)) init = Some (Response 404 NoBody, init).
Proof.
  split; [|split].
  - apply (unissued_id_not_found init seed 99); [apply run_refl|reflexivity|right|]; simpl; lia.
  - apply (unissued_id_not_found init seed 0); [apply run_refl|reflexivity|left|]; simpl; lia.
  - apply (unissued_id_not_found init seed (-1)); [apply run_refl|reflexivity|left|]; simpl; lia.
Defined.

(** ** Names *)

(** X10. With a non-empty string as name and a truthy number, and [persons]
    referring to an array, [POST /api/persons] answers 409 exactly when a
    record of the array has that very string as name, and 201 exactly when
    none has: no other outcome, and no normalisation of case or spaces. *)
Theorem conflict_iff_name_stored (st : state) (ps : list person)
    (props : list (string * value)) (t : string) :
  deref st = Some ps →
  lookup_prop "name" props = VStr t → truthy (VStr t) = true →
  truthy (lookup_prop "number" props) = true →
  (status (post_persons (VObject props) st).1 = 409 ↔ ∃ q, q ∈ ps ∧ name q = VStr t) ∧
  (status (post_persons (VObject props) st).1 = 201 ↔ ∀ q, q ∈ ps → name q ≠ VStr t).
Proof.
  intros Hps Hn Tn Tm.
  destruct (existsb (λ q, strict_eq (name q) (VStr t)) ps) eqn:Hex.
  - rewrite (post_persons_409 (VObject props) (VStr t) (lookup_prop "number" props) st ps);
      [|by simpl; rewrite Hn|done..].
    apply existsb_name_true in Hex as (q & Hq & Heq%strict_eq_VStr_r).
    split; split; try done; [by exists q|].
    intros Hnone. by destruct (Hnone q Hq).
  - rewrite (post_persons_created (VObject props) (VStr t) (lookup_prop "number" props) st ps);
      [|by simpl; rewrite Hn|done..].
    rewrite existsb_name_false in Hex.
    split; split; try done.
    + intros (q & Hq & Heq). apply strict_eq_VStr_r in Heq.
      rewrite (Hex q Hq) in Heq. discriminate.
    + intros _ q Hq Heq%strict_eq_VStr_r. rewrite (Hex q Hq) in Heq. discriminate.
Qed.

Lemma conflict_iff_name_stored_witness :
  (status (post_persons (VObject [("name", VStr "Ada Lovelace "); ("number", VStr "1")])
             init).1 = 409
   ↔ ∃ q, q ∈ seed ∧ name q = VStr "Ada Lovelace ") ∧
  (status (post_persons (VObject [("name", VStr "Ada Lovelace "); ("number", VStr "1")])
             init).1 = 201
   ↔ ∀ q, q ∈ seed → name q ≠ VStr "Ada Lovelace ").
Proof.
  apply (conflict_iff_name_stored init seed
           [("name", VStr "Ada Lovelace "); ("number", VStr "1")] "Ada Lovelace ");
    reflexivity.
Defined.

(** X11. A name, once a [POST] has stored it as a string, stays taken: in the
    state that [POST] leaves and after any further [POST]s, a payload with
    the same string as name and a truthy number is answered 409 and changes
    nothing. *)
Theorem stored_name_stays_taken (body : value) (st st1 st2 : state) (p : person)
    (s : string) (props : list (string * value)) :
  post_persons body st = (Response 201 (JsonPerson p), st1) →
  name p = VStr s →
  run st1 st2 →
  lookup_prop "name" props = VStr s →
  truthy (lookup_prop "number" props) = true →
  post_persons (VObject props) st2
    = (Response 409 (JsonError "name already exists"), st2).
Proof.
  intros (ps & n & m & _ & _ & Tn & _ & Hps & _ & [= ->] & ->)%post_persons_201_inv
         Hname Hrun Hn Tm.
  simpl in Hname. subst n.
  destruct (run_extends _ _ _ Hrun (deref_appended st ps (Person (VStr s) m (generateId ps))))
    as (ext & Hext).
  eapply (post_persons_409 (VObject props) (VStr s) (lookup_prop "number" props) st2);
    [by simpl; rewrite Hn|done|done|done|exact Hext|].
  apply existsb_name_true. exists (Person (VStr s) m (generateId ps)).
  split; [|by apply strict_eq_str].
  rewrite <- app_assoc. apply elem_of_app. right. left.
Qed.

Lemma stored_name_stays_taken_witness :
  let st1 := (post_persons (VObject new_person_payload) init).2 in
  let st2 := (post_persons array_named_payload st1).2 in
  post_persons (VObject [("name", VStr "New Person"); ("number", VStr "111")]) st2
    = (Response 409 (JsonError "name already exists"), st2).
Proof.
  intros st1 st2.
  apply (stored_name_stays_taken (VObject new_person_payload) init st1 st2
           (Person (VStr "New Person") (VStr "000") 5) "New Person").
  - reflexivity.
  - reflexivity.
  - apply run_post, run_refl.
  - reflexivity.
  - reflexivity.
Defined.

(** X12. A name that is an array or an object is never taken for a
    duplicate: with such a name and a truthy number, [POST /api/persons]
    answers 201 and appends the record, whatever the array holds. *)
Theorem object_name_always_accepted (st : state) (ps : list person)
    (props : list (string * value)) :
  deref st = Some ps →
  (∃ items, lookup_prop "name" props = VArray items) ∨
  (∃ fields, lookup_prop "name" props = VObject fields) →
  truthy (lookup_prop "number" props) = true →
  ∃ p st',
    post_persons (VObject props) st = (Response 201 (JsonPerson p), st') ∧
    name p = lookup_prop "name" props ∧
    deref st' = Some (ps ++ [p]).
Proof.
  intros Hps Hobj Tm.
  set (n := lookup_prop "name" props). set (m := lookup_prop "number" props).
  exists (Person n m (generateId ps)), (appended st ps (Person n m (generateId ps))).
  split; [|split; [reflexivity|apply deref_appended]].
  apply (post_persons_created (VObject props) n m st ps); try done.
  - unfold n. by destruct Hobj as [[? ->]|[? ->]].
  - apply existsb_name_false. intros q _. unfold n.
    destruct Hobj as [[? ->]|[? ->]]; by destruct (name q).
Qed.

Lemma object_name_always_accepted_witness :
  ∃ p st',
    post_persons array_named_payload (post_persons array_named_payload init).2
      = (Response 201 (JsonPerson p), st') ∧
    name p = VArray [] ∧
    deref st' = Some ((seed ++ [Person (VArray []) (VStr "1") 5]) ++ [p]).
Proof.
  apply (object_name_always_accepted (post_persons array_named_payload init).2
           (seed ++ [Person (VArray []) (VStr "1") 5])
           [("name", VArray []); ("number", VStr "1")]).
  - reflexivity.
  - left. by exists [].
  - reflexivity.
Defined.

(** ** [PORT] *)

(** X13. [PORT] is never empty: it is the environment's [PORT], a string,
    when that is set to a non-empty string, and the number 3001 when the
    variable is unset or set to the empty string. *)
Theorem PORT_or_default (env : gmap string string) :
  truthy (PORT env) = true ∧
  (∀ s, env !! "PORT" = Some s → s ≠ EmptyString → PORT env = VStr s) ∧
  (env !! "PORT" = None ∨ env !! "PORT" = Some EmptyString →
   PORT env = VNum (num_of_Z 3001)).
Proof.
  unfold PORT. destruct (env !! "PORT") as [s|] eqn:Henv.
  - destruct s as [|c s].
    + split; [done|]. split; [by intros ? [= <-]|done].
    + split; [done|]. split; [by intros ? [= <-]|]. by intros [|[=]].
  - split; [done|]. split; [by intros|done].
Qed.

Lemma PORT_or_default_witness :
  PORT {[ "PORT" := "8080" ]} = VStr "8080" ∧
  PORT (<[ "PORT" := EmptyString ]> ∅) = VNum (num_of_Z 3001) ∧
  PORT ∅ = VNum (num_of_Z 3001).
Proof.
  split; [|split].
  - apply (proj1 (proj2 (PORT_or_default {[ "PORT" := "8080" ]}))); [reflexivity|done].
  - apply (proj2 (proj2 (PORT_or_default (<[ "PORT" := EmptyString ]> ∅)))).
    right. reflexivity.
  - apply (proj2 (proj2 (PORT_or_default ∅))). left. reflexivity.
Defined.
